(** * composetest/app.py: the hit counter behind the single route

    A shallow embedding of [get_hit_count] and [hello].  The program talks to
    three things it does not own: the key-value store behind [cache], the
    clock behind [time.sleep] and the resolver behind [socket].  They are the
    variables of the section below; the program itself is state passing over
    a [world] that records the store's data, how many commands were sent to
    it and the trace of the external calls made so far. *)

From Stdlib Require Import ZArith QArith Lqa String List Bool Lia DecimalString.
From Stdlib Require Import DecimalPos DecimalZ Sorted.
Import ListNotations.
Close Scope Q_scope.
Open Scope string_scope.
Open Scope list_scope.

(** ** Exceptions and results *)

(** The only distinction the code makes between exceptions is the clause
    [except redis.exceptions.ConnectionError]: an exception is either an
    instance of that class (or of a subclass), or it is anything else. *)
Inductive exn : Type :=
| ConnectionError (msg : string)
| OtherError (cls msg : string).

Definition is_ConnectionError (e : exn) : bool :=
  match e with
  | ConnectionError _ => true
  | OtherError _ _ => false
  end.

Inductive result (A : Type) : Type :=
| Returned (a : A)
| Raised (e : exn).
Arguments Returned {A} a.
Arguments Raised {A} e.

(** ** The world outside the process *)

(** What happens to one INCR command sent to the store.  [Reply]: the store
    increments and answers.  [Fail e applied]: the client raises [e];
    [applied] tells whether the store had executed the increment before the
    failure (a connection dropped after the command was processed). *)
Inductive outcome : Type :=
| Reply
| Fail (e : exn) (applied : bool).

Definition connection_failure (o : outcome) : bool :=
  match o with
  | Reply => false
  | Fail e _ => is_ConnectionError e
  end.

Definition applied (o : outcome) : bool :=
  match o with
  | Reply => true
  | Fail _ b => b
  end.

Inductive event : Type :=
| EvIncr (key : string) (n : nat)
| EvSleep (secs : Q)
| EvGetHostName
| EvGetHostByName (name : string).

Record world : Type := mkWorld {
  db : string -> Z;        (* the integer held under each key of the store *)
  issued : nat;            (* commands sent to the store so far *)
  trace : list event       (* external calls so far, oldest first *)
}.

(** ** Computations: state passing with exceptions

    An exception keeps the effects performed before it was raised. *)
Definition M (A : Type) : Type := world -> result A * world.

Definition ret {A} (a : A) : M A := fun w => (Returned a, w).

Definition bind {A B} (m : M A) (f : A -> M B) : M B :=
  fun w =>
    match m w with
    | (Returned a, w1) => f a w1
    | (Raised e, w1) => (Raised e, w1)
    end.

Notation "x <- m ;; k" := (bind m (fun x => k))
  (at level 61, m at next level, right associativity).

Definition emit (ev : event) (w : world) : world :=
  {| db := db w; issued := issued w; trace := trace w ++ [ev] |}.

(** The store's increment primitive on its data: the key's integer plus one
    (a key that was never written holds 0). *)
Definition incr_db (key : string) (d : string -> Z) : string -> Z :=
  fun k => if String.eqb k key then (d k + 1)%Z else d k.

(** [str(count)] for a Python [int]. *)
Definition str (z : Z) : string := NilZero.string_of_int (Z.to_int z).

(** The f-string bound to [return_msg] in [hello]. *)
Definition return_msg (hostname ip_address : string) (count : Z) : string :=
  ("Hostname: " ++ hostname ++ "<br/>"
   ++ "IP Address: " ++ ip_address ++ "<br/>"
   ++ "I have been seen " ++ str count ++ " times.<br/>")%string.

(** [time.sleep(0.5)] *)
Definition delay : Q := 1 # 2.

(** ** Concrete environments used to run the model *)

Definition fresh : world := mkWorld (fun _ => 0%Z) 0 [].

(** A world with history: 41 hits, 7 commands already sent. *)
Definition busy : world :=
  mkWorld (fun _ => 41%Z) 7 [EvGetHostName; EvGetHostByName "web"; EvIncr "hits" 6].

Definition store_up : nat -> outcome := fun _ => Reply.

Definition store_down : nat -> outcome :=
  fun n => Fail (ConnectionError ("refused #" ++ str (Z.of_nat n))%string) false.

(** Unreachable for the first [k] commands (the second one is executed but
    its answer is lost), reachable afterwards. *)
Definition store_recovers (k : nat) : nat -> outcome :=
  fun n => if Nat.ltb n k
           then Fail (ConnectionError "connection reset") (Nat.eqb n 1)
           else Reply.

(** Unreachable for the first [k] commands, then the key holds a value of
    the wrong type. *)
Definition store_wrongtype (k : nat) : nat -> outcome :=
  fun n => if Nat.ltb n k
           then Fail (ConnectionError "connection reset") false
           else Fail (OtherError "ResponseError" "value is not an integer") false.

(** [fresh] after one call against [store_wrongtype 2]. *)
Definition after_wrongtype : world :=
  mkWorld (fun _ => 0%Z) 3
    [EvIncr "hits" 0; EvSleep delay; EvIncr "hits" 1; EvSleep delay;
     EvIncr "hits" 2].

(** [fresh] after one call against [store_down]. *)
Definition after_down : world :=
  mkWorld (fun _ => 0%Z) 6
    [EvIncr "hits" 0; EvSleep delay; EvIncr "hits" 1; EvSleep delay;
     EvIncr "hits" 2; EvSleep delay; EvIncr "hits" 3; EvSleep delay;
     EvIncr "hits" 4; EvSleep delay; EvIncr "hits" 5].

(** [fresh] after one call against [store_recovers 3]: the second command
    was executed although its answer was lost. *)
Definition after_recovers : world :=
  mkWorld (incr_db "hits" (incr_db "hits" (fun _ => 0%Z))) 4
    [EvIncr "hits" 0; EvSleep delay; EvIncr "hits" 1; EvSleep delay;
     EvIncr "hits" 2; EvSleep delay; EvIncr "hits" 3].

Definition host_ok : exn + string := inr "web-1".
Definition host_fails : exn + string := inl (OtherError "OSError" "gethostname").
Definition dns_ok : string -> exn + string := fun _ => inr "172.18.0.3".
Definition dns_fails : string -> exn + string :=
  fun name => inl (OtherError "gaierror" name).
Definition no_latency : nat -> Q := fun _ => 0%Q.

Section App.

(** [store n] is the fate of the [n]-th command this process sends. *)
Variable store : nat -> outcome.
(** [socket.gethostname()] and [socket.gethostbyname(name)]. *)
Variable os_hostname : exn + string.
Variable dns : string -> exn + string.
(** Time the [n]-th store command takes before it answers or fails. *)
Variable latency : nat -> Q.

(** [cache.incr(key)] *)
Definition cache_incr (key : string) : M Z :=
  fun w =>
    let n := issued w in
    let sent := {| db := db w; issued := S n; trace := trace w ++ [EvIncr key n] |} in
    let done := {| db := incr_db key (db w); issued := S n;
                   trace := trace w ++ [EvIncr key n] |} in
    match store n with
    | Reply => (Returned (db w key + 1)%Z, done)
    | Fail e b => (Raised e, if b then done else sent)
    end.

(** [time.sleep(secs)] *)
Definition time_sleep (secs : Q) : M unit :=
  fun w => (Returned tt, emit (EvSleep secs) w).

Definition socket_gethostname : M string :=
  fun w =>
    match os_hostname with
    | inr name => (Returned name, emit EvGetHostName w)
    | inl e => (Raised e, emit EvGetHostName w)
    end.

Definition socket_gethostbyname (name : string) : M string :=
  fun w =>
    match dns name with
    | inr addr => (Returned addr, emit (EvGetHostByName name) w)
    | inl e => (Raised e, emit (EvGetHostByName name) w)
    end.

(** The [while True] loop of [get_hit_count], started with the local
    [retries] at the given value.  Besides the result it gives the value
    of [retries] when the loop is left. *)
Fixpoint while_true (retries : nat) (w : world) : result Z * nat * world :=
  match cache_incr "hits" w with
  | (Returned v, w1) => (Returned v, retries, w1)
  | (Raised exc, w1) =>
      if is_ConnectionError exc then
        match retries with
        | O => (Raised exc, retries, w1)
        | S retries' =>
            let (_, w2) := time_sleep delay w1 in
            while_true retries' w2
        end
      else (Raised exc, retries, w1)
  end.

Definition get_hit_count : M Z :=
  fun w => let '(r, _, w') := while_true 5 w in (r, w').

Definition hello : M string :=
  hostname <- socket_gethostname ;;
  ip_address <- socket_gethostbyname hostname ;;
  count <- get_hit_count ;;
  ret (return_msg hostname ip_address count).

(** ** Vocabulary of the statements *)

(** The world after [k] rounds of "send the command, then sleep". *)
Fixpoint skip_failures (k : nat) (w : world) : world :=
  match k with
  | O => w
  | S k' => skip_failures k' (snd (time_sleep delay (snd (cache_incr "hits" w))))
  end.

(** The external calls of [k] failed attempts starting at command [n],
    each followed by its delay. *)
Fixpoint retry_events (n k : nat) : list event :=
  match k with
  | O => []
  | S k' => EvIncr "hits" n :: EvSleep delay :: retry_events (S n) k'
  end.

(** What a call adds to the trace: [k] failed attempts with their delays,
    then the attempt that ends the call. *)
Definition call_events (n k : nat) : list event :=
  retry_events n k ++ [EvIncr "hits" (n + k)].

(** [n] retries at the fixed delay, as a duration. *)
Definition retries_time (n : nat) : Q := (inject_Z (Z.of_nat n) * delay)%Q.

(** How many of the commands [n .. n+k-1] the store executed. *)
Fixpoint applied_among (n k : nat) : nat :=
  match k with
  | O => 0
  | S k' => (if applied (store n) then 1 else 0) + applied_among (S n) k'
  end.

(** The next [k] commands sent from [w] all raise a connection failure. *)
Definition fails_first (k : nat) (w : world) : Prop :=
  forall i, i < k -> connection_failure (store (issued w + i)) = true.

Definition is_sleep (ev : event) : bool :=
  match ev with EvSleep _ => true | _ => false end.

Definition is_incr (ev : event) : bool :=
  match ev with EvIncr _ _ => true | _ => false end.

Definition is_lookup (ev : event) : bool :=
  match ev with EvGetHostName | EvGetHostByName _ => true | _ => false end.

Definition count (p : event -> bool) (tr : list event) : nat :=
  List.length (filter p tr).

(** Time spent in [time.sleep] along a trace. *)
Fixpoint slept (tr : list event) : Q :=
  match tr with
  | [] => 0%Q
  | EvSleep secs :: tr' => (secs + slept tr')%Q
  | _ :: tr' => slept tr'
  end.

(** Time spent along a trace, store commands included. *)
Definition duration (ev : event) : Q :=
  match ev with
  | EvIncr _ n => latency n
  | EvSleep secs => secs
  | _ => 0%Q
  end.

Fixpoint elapsed (tr : list event) : Q :=
  match tr with
  | [] => 0%Q
  | ev :: tr' => (duration ev + elapsed tr')%Q
  end.

(** [n] calls of [get_hit_count], one after the other. *)
Fixpoint calls (n : nat) (w : world) : list (result Z) * world :=
  match n with
  | O => ([], w)
  | S n' =>
      let (r, w1) := get_hit_count w in
      let (rs, w2) := calls n' w1 in
      (r :: rs, w2)
  end.

(** The exception of the identity lookups, if one of them fails. *)
Definition resolution_failure : option exn :=
  match os_hostname with
  | inl e => Some e
  | inr name => match dns name with inl e => Some e | inr _ => None end
  end.

(** The lookups one request performs. *)
Definition identity_trace : list event :=
  match os_hostname with
  | inl _ => [EvGetHostName]
  | inr name => [EvGetHostName; EvGetHostByName name]
  end.

(** The world once both lookups have answered. *)
Definition resolved (name : string) (w : world) : world :=
  emit (EvGetHostByName name) (emit EvGetHostName w).

(** [n] requests to the route, one after the other. *)
Fixpoint requests (n : nat) (w : world) : list (result string) * world :=
  match n with
  | O => ([], w)
  | S n' =>
      let (r, w1) := hello w in
      let (rs, w2) := requests n' w1 in
      (r :: rs, w2)
  end.

(** The integers among the results of a run of calls, in order. *)
Fixpoint returned_values (rs : list (result Z)) : list Z :=
  match rs with
  | [] => []
  | Returned v :: rs' => v :: returned_values rs'
  | Raised _ :: rs' => returned_values rs'
  end.

(** [s in t] on strings. *)
Fixpoint contains (s t : string) : bool :=
  String.prefix s t ||
  match t with
  | EmptyString => false
  | String _ t' => contains s t'
  end.

(** ** One command, one sleep *)

Lemma cache_incr_issued key w :
  issued (snd (cache_incr key w)) = S (issued w).
Proof.
  unfold cache_incr. destruct (store (issued w)) as [|e [|]]; reflexivity.
Qed.

Lemma cache_incr_trace key w :
  trace (snd (cache_incr key w)) = trace w ++ [EvIncr key (issued w)].
Proof.
  unfold cache_incr. destruct (store (issued w)) as [|e [|]]; reflexivity.
Qed.

Lemma cache_incr_db key w :
  db (snd (cache_incr key w)) key
  = (db w key + (if applied (store (issued w)) then 1 else 0))%Z.
Proof.
  unfold cache_incr.
  destruct (store (issued w)) as [|e [|]]; simpl; unfold incr_db;
    rewrite ?String.eqb_refl; lia.
Qed.

Lemma cache_incr_reply key w :
  store (issued w) = Reply ->
  fst (cache_incr key w) = Returned (db (snd (cache_incr key w)) key).
Proof.
  intros H. unfold cache_incr. rewrite H. simpl. unfold incr_db.
  now rewrite String.eqb_refl.
Qed.

Lemma cache_incr_fail key w e b :
  store (issued w) = Fail e b -> fst (cache_incr key w) = Raised e.
Proof. intros H. unfold cache_incr. now rewrite H. Qed.

(** One turn of the loop, as the source writes it. *)
Lemma while_true_eq retries w :
  while_true retries w =
  match cache_incr "hits" w with
  | (Returned v, w1) => (Returned v, retries, w1)
  | (Raised exc, w1) =>
      if is_ConnectionError exc then
        if Nat.eqb retries 0 then (Raised exc, retries, w1)
        else while_true (retries - 1) (snd (time_sleep delay w1))
      else (Raised exc, retries, w1)
  end.
Proof.
  destruct retries as [|r]; simpl; [reflexivity|].
  now rewrite Nat.sub_0_r.
Qed.

Lemma while_true_reply retries w :
  store (issued w) = Reply ->
  while_true retries w
  = (Returned (db w "hits" + 1)%Z, retries, snd (cache_incr "hits" w)).
Proof.
  intros H. rewrite while_true_eq. unfold cache_incr. now rewrite H.
Qed.

Lemma while_true_other retries w e b :
  store (issued w) = Fail e b -> is_ConnectionError e = false ->
  while_true retries w = (Raised e, retries, snd (cache_incr "hits" w)).
Proof.
  intros H He. rewrite while_true_eq. unfold cache_incr. rewrite H. simpl.
  now rewrite He.
Qed.

Lemma while_true_exhausted w e b :
  store (issued w) = Fail e b -> is_ConnectionError e = true ->
  while_true 0 w = (Raised e, 0, snd (cache_incr "hits" w)).
Proof.
  intros H He. rewrite while_true_eq. unfold cache_incr. rewrite H. simpl.
  now rewrite He.
Qed.

Lemma while_true_retry retries w :
  connection_failure (store (issued w)) = true ->
  while_true (S retries) w = while_true retries (skip_failures 1 w).
Proof.
  intros H. simpl. unfold cache_incr in *.
  destruct (store (issued w)) as [|e b]; simpl in H; [discriminate|].
  now rewrite H.
Qed.

(** ** Runs of failed attempts *)

Lemma skip_failures_issued k : forall w,
  issued (skip_failures k w) = issued w + k.
Proof.
  induction k as [|k IH]; intros w; simpl; [lia|].
  rewrite IH. simpl. rewrite cache_incr_issued. lia.
Qed.

Lemma skip_failures_trace k : forall w,
  trace (skip_failures k w) = trace w ++ retry_events (issued w) k.
Proof.
  induction k as [|k IH]; intros w; simpl.
  - now rewrite app_nil_r.
  - rewrite IH. simpl. rewrite cache_incr_issued, cache_incr_trace.
    now rewrite <- !app_assoc.
Qed.

Lemma skip_failures_db k : forall w,
  db (skip_failures k w) "hits"
  = (db w "hits" + Z.of_nat (applied_among (issued w) k))%Z.
Proof.
  induction k as [|k IH]; intros w; simpl; [lia|].
  rewrite IH. simpl. rewrite cache_incr_issued, cache_incr_db.
  destruct (applied (store (issued w))); lia.
Qed.

Lemma fails_first_next k w :
  fails_first (S k) w ->
  connection_failure (store (issued w)) = true
  /\ fails_first k (skip_failures 1 w).
Proof.
  intros H. split.
  - specialize (H 0). rewrite Nat.add_0_r in H. apply H. lia.
  - intros i Hi. simpl. rewrite cache_incr_issued.
    replace (S (issued w) + i) with (issued w + S i) by lia.
    apply H. lia.
Qed.

(** [k] connection failures cost [k] units of the budget and lead to the
    world [skip_failures k w]. *)
Lemma while_true_skip k : forall retries w,
  fails_first k w ->
  while_true (k + retries) w = while_true retries (skip_failures k w).
Proof.
  induction k as [|k IH]; intros retries w H; [reflexivity|].
  apply fails_first_next in H as [H0 Hk].
  change (S k + retries) with (S (k + retries)).
  rewrite while_true_retry by exact H0.
  now rewrite IH by exact Hk.
Qed.

(** The loop leaves at the first command that does not raise a connection
    failure, or at the command sent with an empty budget. *)
Lemma while_true_shape retries : forall w,
  exists k,
    k <= retries
    /\ fails_first k w
    /\ (connection_failure (store (issued w + k)) = true -> k = retries)
    /\ while_true retries w
       = (fst (cache_incr "hits" (skip_failures k w)), retries - k,
          snd (cache_incr "hits" (skip_failures k w))).
Proof.
  induction retries as [|r IH]; intros w.
  - exists 0. split; [lia|]. split; [intros i Hi; lia|]. split; [reflexivity|].
    rewrite while_true_eq. simpl.
    destruct (cache_incr "hits" w) as [[v|e] w1]; simpl; [reflexivity|].
    now destruct (is_ConnectionError e).
  - destruct (connection_failure (store (issued w))) eqn:Hc.
    + destruct (IH (skip_failures 1 w)) as (k & Hk & Hf & Hl & Heq).
      exists (S k). split; [lia|]. split; [|split].
      * intros i Hi. destruct i as [|i]; [now rewrite Nat.add_0_r|].
        specialize (Hf i). simpl in Hf. rewrite cache_incr_issued in Hf.
        replace (issued w + S i) with (S (issued w) + i) by lia.
        apply Hf. lia.
      * intros H. f_equal. apply Hl. simpl. rewrite cache_incr_issued.
        now replace (S (issued w) + k) with (issued w + S k) by lia.
      * rewrite while_true_retry by exact Hc. exact Heq.
    + exists 0. split; [lia|]. split; [intros i Hi; lia|]. split.
      * rewrite Nat.add_0_r. congruence.
      * rewrite Nat.sub_0_r. simpl skip_failures.
        destruct (store (issued w)) as [|e b] eqn:Hs.
        -- rewrite while_true_reply by exact Hs.
           unfold cache_incr. now rewrite Hs.
        -- simpl in Hc. rewrite (while_true_other _ _ _ _ Hs Hc).
           now rewrite (cache_incr_fail _ _ _ _ Hs).
Qed.

Lemma last_command_trace k w :
  trace (snd (cache_incr "hits" (skip_failures k w)))
  = trace w ++ call_events (issued w) k.
Proof.
  rewrite cache_incr_trace, skip_failures_trace, skip_failures_issued.
  unfold call_events. now rewrite <- app_assoc.
Qed.

Lemma last_command_issued k w :
  issued (snd (cache_incr "hits" (skip_failures k w))) = issued w + S k.
Proof. rewrite cache_incr_issued, skip_failures_issued. lia. Qed.

Lemma count_app p tr1 tr2 : count p (tr1 ++ tr2) = count p tr1 + count p tr2.
Proof. unfold count. now rewrite filter_app, length_app. Qed.

Lemma count_sleep_retry_events k : forall n,
  count is_sleep (retry_events n k) = k.
Proof.
  induction k as [|k IH]; intros n; [reflexivity|].
  change (S (count is_sleep (retry_events (S n) k)) = S k). now rewrite IH.
Qed.

Lemma count_incr_retry_events k : forall n,
  count is_incr (retry_events n k) = k.
Proof.
  induction k as [|k IH]; intros n; [reflexivity|].
  change (S (count is_incr (retry_events (S n) k)) = S k). now rewrite IH.
Qed.

Lemma count_sleep_call_events n k : count is_sleep (call_events n k) = k.
Proof.
  unfold call_events. rewrite count_app, count_sleep_retry_events.
  unfold count. simpl. lia.
Qed.

Lemma count_incr_call_events n k : count is_incr (call_events n k) = S k.
Proof.
  unfold call_events. rewrite count_app, count_incr_retry_events.
  unfold count. simpl. lia.
Qed.

Lemma sleeps_of_call_events k : forall n secs,
  In (EvSleep secs) (call_events n k) -> secs = delay.
Proof.
  unfold call_events.
  induction k as [|k IH]; intros n secs H; simpl in H.
  - destruct H as [H|[]]. discriminate.
  - destruct H as [H|[H|H]]; [discriminate|congruence|].
    replace (n + S k) with (S n + k) in H by lia. eauto.
Qed.

Lemma last_call_events k : forall n d,
  last (call_events n k) d = EvIncr "hits" (n + k).
Proof.
  intros n d. unfold call_events. now rewrite last_last.
Qed.

Lemma call_events_S n k :
  call_events n (S k) = EvIncr "hits" n :: EvSleep delay :: call_events (S n) k.
Proof.
  unfold call_events. simpl. now replace (n + S k) with (S (n + k)) by lia.
Qed.

Lemma retries_time_S n : (retries_time (S n) == delay + retries_time n)%Q.
Proof.
  unfold retries_time. rewrite Nat2Z.inj_succ. unfold Z.succ.
  rewrite inject_Z_plus. ring.
Qed.

Lemma slept_call_events k : forall n,
  (slept (call_events n k) == retries_time k)%Q.
Proof.
  induction k as [|k IH]; intros n.
  - reflexivity.
  - rewrite call_events_S, retries_time_S. simpl. now rewrite IH.
Qed.

Lemma elapsed_call_events k :
  (forall n, (0 <= latency n)%Q) ->
  forall n, (retries_time k <= elapsed (call_events n k))%Q.
Proof.
  intros Hl. induction k as [|k IH]; intros n.
  - unfold call_events, retries_time, delay. simpl.
    specialize (Hl (n + 0)). change (inject_Z 0) with 0%Q. lra.
  - rewrite call_events_S, retries_time_S. simpl.
    specialize (IH (S n)). specialize (Hl n). lra.
Qed.

Lemma retries_time_mono k n : k <= n -> (retries_time k <= retries_time n)%Q.
Proof.
  intros H. unfold retries_time, delay.
  apply Qmult_le_compat_r; [|discriminate].
  rewrite <- Zle_Qle. lia.
Qed.

Lemma get_hit_count_eq w :
  get_hit_count w = (fst (fst (while_true 5 w)), snd (while_true 5 w)).
Proof.
  unfold get_hit_count. now destruct (while_true 5 w) as [[r left] w'].
Qed.

Lemma fails_first_le k n w : k <= n -> fails_first n w -> fails_first k w.
Proof. intros Hk H i Hi. apply H. lia. Qed.

Lemma while_true_run retries w res left w' :
  while_true retries w = (res, left, w') ->
  exists k,
    k <= retries
    /\ fails_first k w
    /\ (connection_failure (store (issued w + k)) = true -> k = retries)
    /\ res = fst (cache_incr "hits" (skip_failures k w))
    /\ left = retries - k
    /\ w' = snd (cache_incr "hits" (skip_failures k w)).
Proof.
  intros Hrun.
  destruct (while_true_shape retries w) as (k & Hk & Hf & Hlast & Heq).
  rewrite Hrun in Heq. exists k.
  repeat (split; [assumption || congruence|]). congruence.
Qed.

(** A budget of [retries] is used up by [retries + 1] connection
    failures. *)
Lemma while_true_exhausts retries w :
  fails_first (S retries) w ->
  exists e b,
    store (issued w + retries) = Fail e b
    /\ is_ConnectionError e = true
    /\ while_true retries w
       = (Raised e, 0, snd (cache_incr "hits" (skip_failures retries w))).
Proof.
  intros H.
  assert (Hr : connection_failure (store (issued w + retries)) = true)
    by (apply H; lia).
  destruct (store (issued w + retries)) as [|e b] eqn:Hs; [discriminate|].
  simpl in Hr. exists e, b.
  split; [reflexivity|]. split; [exact Hr|].
  rewrite <- (Nat.add_0_r retries) at 1.
  rewrite while_true_skip
    by (apply (fails_first_le retries (S retries)); [lia|exact H]).
  apply (while_true_exhausted _ e b); [|exact Hr].
  now rewrite skip_failures_issued.
Qed.

(** ** The resilient counter *)

(** C1: when every attempt raises a connection failure, the call sends
    exactly 6 commands (the first attempt and 5 retries), all of them
    failing, and then raises the exception of the 6th attempt; it returns
    no integer. *)
Theorem get_hit_count_exhausts w :
  fails_first 6 w ->
  exists e b w',
    store (issued w + 5) = Fail e b
    /\ is_ConnectionError e = true
    /\ get_hit_count w = (Raised e, w')
    /\ issued w' = issued w + 6
    /\ trace w' = trace w ++ call_events (issued w) 5
    /\ count is_incr (call_events (issued w) 5) = 6.
Proof.
  intros H.
  destruct (while_true_exhausts 5 w H) as (e & b & Hs & He & Hrun).
  exists e, b, (snd (cache_incr "hits" (skip_failures 5 w))).
  split; [exact Hs|]. split; [exact He|].
  split; [now rewrite get_hit_count_eq, Hrun|].
  split; [rewrite last_command_issued; lia|].
  split; [apply last_command_trace|apply count_incr_call_events].
Qed.

(** C2: when the first [k <= 5] attempts raise a connection failure and
    the next one is answered, the call returns the value the store's
    increment produced on that attempt: one more than the counter held
    just before it. *)
Theorem get_hit_count_recovers k w :
  k <= 5 -> fails_first k w -> store (issued w + k) = Reply ->
  exists v w',
    get_hit_count w = (Returned v, w')
    /\ cache_incr "hits" (skip_failures k w) = (Returned v, w')
    /\ v = (db (skip_failures k w) "hits" + 1)%Z
    /\ db w' "hits" = v
    /\ v = (db w "hits" + Z.of_nat (applied_among (issued w) k) + 1)%Z
    /\ issued w' = issued w + k + 1.
Proof.
  intros Hk Hf Hs.
  set (wk := skip_failures k w).
  assert (Hs' : store (issued wk) = Reply)
    by (unfold wk; now rewrite skip_failures_issued).
  exists (db wk "hits" + 1)%Z, (snd (cache_incr "hits" wk)).
  assert (Hrun : while_true 5 w
                 = (Returned (db wk "hits" + 1)%Z, 5 - k,
                    snd (cache_incr "hits" wk))).
  { replace 5 with (k + (5 - k)) at 1 by lia.
    rewrite while_true_skip by exact Hf.
    now apply while_true_reply. }
  split; [now rewrite get_hit_count_eq, Hrun|].
  split; [unfold cache_incr; now rewrite Hs'|].
  split; [reflexivity|].
  split; [rewrite cache_incr_db, Hs'; reflexivity|].
  split; [unfold wk; rewrite skip_failures_db; lia|].
  unfold wk. rewrite last_command_issued. lia.
Qed.

Lemma get_hit_count_reply w :
  store (issued w) = Reply ->
  get_hit_count w = (Returned (db w "hits" + 1)%Z, snd (cache_incr "hits" w)).
Proof.
  intros H. rewrite get_hit_count_eq. now rewrite while_true_reply.
Qed.

(** C3: with the store reachable, [n] calls one after the other return
    h+1, h+2, ..., h+n where h is the counter before the first call. *)
Theorem sequential_calls_count_up n : forall w,
  (forall i, i < n -> store (issued w + i) = Reply) ->
  fst (calls n w)
  = map (fun i => Returned (db w "hits" + 1 + Z.of_nat i)%Z) (seq 0 n).
Proof.
  induction n as [|n IH]; intros w H; [reflexivity|].
  assert (H0 : store (issued w) = Reply).
  { specialize (H 0). rewrite Nat.add_0_r in H. apply H. lia. }
  simpl calls. rewrite (get_hit_count_reply w H0).
  set (w1 := snd (cache_incr "hits" w)).
  specialize (IH w1).
  destruct (calls n w1) as [rs w2]. simpl in IH. simpl.
  rewrite Z.add_0_r. f_equal.
  rewrite IH.
  - rewrite <- seq_shift, map_map. apply map_ext. intros i.
    unfold w1. rewrite cache_incr_db, H0. simpl. f_equal. lia.
  - intros i Hi. unfold w1. rewrite cache_incr_issued.
    replace (S (issued w) + i) with (issued w + S i) by lia.
    apply H. lia.
Qed.

(** C4: an exception of the store that is not a connection failure ends
    the call at once, on whichever attempt it happens and whatever budget
    is left: the budget is not touched, no delay follows and no further
    command is sent. *)
Theorem other_failure_propagates k retries w e b :
  k <= 5 -> fails_first k w ->
  store (issued w + k) = Fail e b -> is_ConnectionError e = false ->
  exists w',
    while_true (k + retries) w = (Raised e, retries, w')
    /\ get_hit_count w = (Raised e, w')
    /\ issued w' = issued w + k + 1
    /\ trace w' = trace w ++ call_events (issued w) k
    /\ count is_sleep (call_events (issued w) k) = k
    /\ last (call_events (issued w) k) EvGetHostName
       = EvIncr "hits" (issued w + k).
Proof.
  intros Hk Hf Hs He.
  set (wk := skip_failures k w).
  assert (Hs' : store (issued wk) = Fail e b)
    by (unfold wk; now rewrite skip_failures_issued).
  exists (snd (cache_incr "hits" wk)).
  assert (Hrun : forall r, while_true (k + r) w
                           = (Raised e, r, snd (cache_incr "hits" wk))).
  { intros r. rewrite while_true_skip by exact Hf.
    now apply (while_true_other _ _ e b). }
  split; [apply Hrun|].
  split.
  { rewrite get_hit_count_eq. replace 5 with (k + (5 - k)) by lia.
    now rewrite Hrun. }
  split; [unfold wk; rewrite last_command_issued; lia|].
  split; [apply last_command_trace|].
  split; [apply count_sleep_call_events|apply last_call_events].
Qed.

(** C5: a call that consumes N retries sleeps N times 0.5, one delay
    between each two consecutive attempts; it is blocked for at least
    N * 0.5 (store commands take time too), and no call sleeps for more
    than 5 * 0.5. *)
Theorem call_blocking_time w res left w' :
  (forall n, (0 <= latency n)%Q) ->
  while_true 5 w = (res, left, w') ->
  get_hit_count w = (res, w')
  /\ left <= 5
  /\ trace w' = trace w ++ call_events (issued w) (5 - left)
  /\ (forall secs, In (EvSleep secs) (call_events (issued w) (5 - left)) ->
      secs = (1 # 2)%Q)
  /\ (slept (call_events (issued w) (5 - left))
      == inject_Z (Z.of_nat (5 - left)) * (1 # 2))%Q
  /\ (inject_Z (Z.of_nat (5 - left)) * (1 # 2)
      <= elapsed (call_events (issued w) (5 - left)))%Q
  /\ (slept (call_events (issued w) (5 - left)) <= 5 * (1 # 2))%Q.
Proof.
  intros Hl Hrun.
  destruct (while_true_run _ _ _ _ _ Hrun) as (k & Hk & _ & _ & _ & Hleft & Hw).
  assert (Hk' : 5 - left = k) by lia. rewrite Hk'.
  split; [now rewrite get_hit_count_eq, Hrun|].
  split; [lia|].
  split; [rewrite Hw; apply last_command_trace|].
  split; [apply sleeps_of_call_events|].
  split; [apply slept_call_events|].
  split; [now apply elapsed_call_events|].
  rewrite slept_call_events.
  apply (retries_time_mono k 5 Hk).
Qed.

(** C8: the budget belongs to the call.  After any number of earlier
    calls, whatever their outcomes, the next call stops at the first
    command that does not raise a connection failure or at its 6th
    command, and every delay it takes is 0.5; after an exhausted call the
    next one still sends 6 commands. *)
Theorem retry_budget_is_per_call n w :
  let wn := snd (calls n w) in
  exists k,
    k <= 5
    /\ fails_first k wn
    /\ (connection_failure (store (issued wn + k)) = true -> k = 5)
    /\ snd (fst (while_true 5 wn)) = 5 - k
    /\ issued (snd (get_hit_count wn)) = issued wn + S k
    /\ trace (snd (get_hit_count wn)) = trace wn ++ call_events (issued wn) k
    /\ (forall secs, In (EvSleep secs) (call_events (issued wn) k) ->
        secs = (1 # 2)%Q)
    /\ (fails_first 6 wn ->
        issued (snd (get_hit_count wn)) = issued wn + 6
        /\ count is_sleep (call_events (issued wn) k) = 5).
Proof.
  intros wn.
  destruct (while_true_shape 5 wn) as (k & Hk & Hf & Hlast & Heq).
  exists k. rewrite get_hit_count_eq, Heq. simpl.
  split; [exact Hk|]. split; [exact Hf|]. split; [exact Hlast|].
  split; [reflexivity|].
  split; [apply last_command_issued|].
  split; [apply last_command_trace|].
  split; [apply sleeps_of_call_events|].
  intros H6. assert (k = 5) as -> by (apply Hlast, H6; lia).
  split; [apply last_command_issued|apply count_sleep_call_events].
Qed.

(** C10: a call sleeps once per retry it consumes, each time for 0.5, and
    the last thing it does is send a command, never sleep; a call whose 6
    attempts all raise a connection failure sleeps exactly 5 times. *)
Theorem sleeps_match_retries w res left w' :
  while_true 5 w = (res, left, w') ->
  get_hit_count w = (res, w')
  /\ left <= 5
  /\ trace w' = trace w ++ call_events (issued w) (5 - left)
  /\ count is_sleep (call_events (issued w) (5 - left)) = 5 - left
  /\ count is_incr (call_events (issued w) (5 - left)) = S (5 - left)
  /\ (forall secs, In (EvSleep secs) (call_events (issued w) (5 - left)) ->
      secs = (1 # 2)%Q)
  /\ last (call_events (issued w) (5 - left)) EvGetHostName
     = EvIncr "hits" (issued w + (5 - left))
  /\ (fails_first 6 w ->
      left = 0
      /\ count is_sleep (call_events (issued w) (5 - left)) = 5
      /\ exists e, res = Raised e /\ is_ConnectionError e = true).
Proof.
  intros Hrun.
  destruct (while_true_run _ _ _ _ _ Hrun)
    as (k & Hk & _ & Hlast & _ & Hleft & Hw).
  assert (Hk' : 5 - left = k) by lia. rewrite Hk'.
  split; [now rewrite get_hit_count_eq, Hrun|].
  split; [lia|].
  split; [rewrite Hw; apply last_command_trace|].
  split; [apply count_sleep_call_events|].
  split; [apply count_incr_call_events|].
  split; [apply sleeps_of_call_events|].
  split; [apply last_call_events|].
  intros H6.
  destruct (while_true_exhausts 5 w H6) as (e & b & _ & He & Hg).
  rewrite Hrun in Hg.
  assert (Hk5 : k = 5) by (apply Hlast, H6; lia).
  split; [lia|]. split; [rewrite Hk5; apply count_sleep_call_events|].
  exists e. split; [congruence|exact He].
Qed.

(** ** The request handler *)

Lemma prefix_append s : forall post, String.prefix s (s ++ post)%string = true.
Proof.
  induction s as [|c s IH]; intros post; simpl; [now destruct post|].
  destruct (Ascii.ascii_dec c c); [apply IH|congruence].
Qed.

Lemma contains_prefix s t : String.prefix s t = true -> contains s t = true.
Proof.
  intros H. destruct t as [|c t]; cbn [contains]; rewrite H; reflexivity.
Qed.

Lemma contains_skip s pre : forall t,
  contains s t = true -> contains s (pre ++ t)%string = true.
Proof.
  induction pre as [|c pre IH]; intros t H; simpl; [exact H|].
  rewrite (IH t H). apply orb_true_r.
Qed.

Lemma return_msg_hostname h a c : contains h (return_msg h a c) = true.
Proof.
  unfold return_msg. apply contains_skip, contains_prefix, prefix_append.
Qed.

Lemma return_msg_address h a c : contains a (return_msg h a c) = true.
Proof.
  unfold return_msg.
  do 4 apply contains_skip. apply contains_prefix, prefix_append.
Qed.

Lemma return_msg_count h a c s :
  contains s ("I have been seen " ++ str c ++ " times.<br/>")%string = true ->
  contains s (return_msg h a c) = true.
Proof. intros H. unfold return_msg. do 6 apply contains_skip. exact H. Qed.

Lemma hello_resolved w h a :
  os_hostname = inr h -> dns h = inr a ->
  hello w =
  match get_hit_count (resolved h w) with
  | (Returned count, w') => (Returned (return_msg h a count), w')
  | (Raised e, w') => (Raised e, w')
  end.
Proof.
  intros Hh Ha. unfold hello, bind, socket_gethostname, socket_gethostbyname.
  rewrite Hh, Ha. reflexivity.
Qed.

Lemma hello_unresolved w e :
  resolution_failure = Some e ->
  hello w = (Raised e, {| db := db w; issued := issued w;
                          trace := trace w ++ identity_trace |}).
Proof.
  unfold resolution_failure, identity_trace, hello, bind,
    socket_gethostname, socket_gethostbyname.
  destruct os_hostname as [e0|h].
  - intros [= ->]. reflexivity.
  - destruct (dns h) as [e0|a]; [|discriminate].
    intros [= ->]. unfold emit. simpl. now rewrite <- app_assoc.
Qed.

(** C6: with the store reachable and the counter at 0, the first request
    answers "I have been seen 1 times.", the second one "I have been seen
    2 times."; both bodies carry the host name and the address. *)
Theorem hello_counts_visits w h a :
  os_hostname = inr h -> dns h = inr a ->
  store (issued w) = Reply -> store (S (issued w)) = Reply ->
  db w "hits" = 0%Z ->
  exists w1 w2,
    hello w = (Returned (return_msg h a 1), w1)
    /\ hello w1 = (Returned (return_msg h a 2), w2)
    /\ contains "I have been seen 1 times." (return_msg h a 1) = true
    /\ contains "I have been seen 2 times." (return_msg h a 2) = true
    /\ contains h (return_msg h a 1) = true
    /\ contains a (return_msg h a 1) = true
    /\ contains h (return_msg h a 2) = true
    /\ contains a (return_msg h a 2) = true.
Proof.
  intros Hh Ha H1 H2 H0.
  set (w1 := snd (cache_incr "hits" (resolved h w))).
  set (w2 := snd (cache_incr "hits" (resolved h w1))).
  assert (E1 : hello w = (Returned (return_msg h a 1), w1)).
  { rewrite (hello_resolved w h a Hh Ha).
    rewrite get_hit_count_reply by exact H1.
    simpl db. now rewrite H0. }
  assert (D1 : db w1 "hits" = 1%Z).
  { unfold w1. rewrite cache_incr_db. simpl. rewrite H1, H0. reflexivity. }
  assert (I1 : issued w1 = S (issued w)).
  { unfold w1. now rewrite cache_incr_issued. }
  assert (E2 : hello w1 = (Returned (return_msg h a 2), w2)).
  { rewrite (hello_resolved w1 h a Hh Ha).
    rewrite get_hit_count_reply by (simpl; now rewrite I1).
    simpl db. now rewrite D1. }
  exists w1, w2.
  split; [exact E1|]. split; [exact E2|].
  split; [now apply return_msg_count|].
  split; [now apply return_msg_count|].
  split; [apply return_msg_hostname|].
  split; [apply return_msg_address|].
  split; [apply return_msg_hostname|apply return_msg_address].
Qed.

(** C7: when the host name or the address lookup fails, the request
    raises that very exception; each lookup was tried at most once, in
    order, and nothing else was done about the failure. *)
Theorem resolution_failure_propagates w e :
  resolution_failure = Some e ->
  exists w',
    hello w = (Raised e, w')
    /\ ((os_hostname = inl e /\ trace w' = trace w ++ [EvGetHostName])
        \/ (exists name,
              os_hostname = inr name /\ dns name = inl e
              /\ trace w' = trace w ++ [EvGetHostName; EvGetHostByName name]))
    /\ count is_lookup identity_trace <= 2.
Proof.
  intros H. rewrite (hello_unresolved w e H).
  eexists. split; [reflexivity|]. simpl.
  unfold resolution_failure, identity_trace in *.
  destruct os_hostname as [e0|h].
  - injection H as ->. split; [now left|]. unfold count. simpl. lia.
  - destruct (dns h) as [e0|a] eqn:Hd; [|discriminate].
    injection H as ->. split; [|unfold count; simpl; lia].
    right. exists h. now rewrite Hd.
Qed.

Lemma get_hit_count_trace w :
  exists k, trace (snd (get_hit_count w)) = trace w ++ call_events (issued w) k.
Proof.
  destruct (while_true_shape 5 w) as (k & _ & _ & _ & Heq).
  exists k. rewrite get_hit_count_eq, Heq. apply last_command_trace.
Qed.

Lemma count_lookup_call_events k : forall n,
  count is_lookup (call_events n k) = 0.
Proof.
  induction k as [|k IH]; intros n; [reflexivity|].
  rewrite call_events_S. exact (IH (S n)).
Qed.

(** C9: a request does its lookups first and only then talks to the
    store; when a lookup fails, no command is sent to the store, the
    request does not sleep, and the counter keeps its value. *)
Theorem resolution_before_increment w :
  exists evs,
    trace (snd (hello w)) = trace w ++ identity_trace ++ evs
    /\ count is_lookup evs = 0
    /\ count is_incr identity_trace = 0
    /\ (forall e, resolution_failure = Some e ->
        evs = []
        /\ fst (hello w) = Raised e
        /\ issued (snd (hello w)) = issued w
        /\ db (snd (hello w)) = db w).
Proof.
  destruct resolution_failure as [e|] eqn:Hr.
  - exists []. rewrite (hello_unresolved w e Hr). simpl.
    rewrite app_nil_r. split; [reflexivity|]. split; [reflexivity|].
    split; [unfold identity_trace; now destruct os_hostname|].
    intros e' [= <-]. now repeat split.
  - unfold resolution_failure in Hr.
    destruct os_hostname as [e0|h] eqn:Hh; [discriminate|].
    destruct (dns h) as [e0|a] eqn:Ha; [discriminate|].
    destruct (get_hit_count_trace (resolved h w)) as (k & Hk).
    exists (call_events (issued w) k).
    split.
    + rewrite (hello_resolved w h a Hh Ha).
      destruct (get_hit_count (resolved h w)) as [[c|e] w'];
        simpl in *; rewrite Hk; unfold identity_trace; rewrite Hh;
        now rewrite <- !app_assoc.
    + split; [apply count_lookup_call_events|].
      split; [unfold identity_trace; now rewrite Hh|].
      intros e; discriminate.
Qed.

(** ** More on the counter *)

Lemma cache_incr_other_key key k w :
  k <> key -> db (snd (cache_incr key w)) k = db w k.
Proof.
  intros H. apply String.eqb_neq in H. unfold cache_incr.
  destruct (store (issued w)) as [|e [|]]; simpl; unfold incr_db;
    now rewrite ?H.
Qed.

Lemma skip_failures_other_key n : forall k w,
  k <> "hits" -> db (skip_failures n w) k = db w k.
Proof.
  induction n as [|n IH]; intros k w H; simpl; [reflexivity|].
  rewrite IH by exact H. simpl. now apply cache_incr_other_key.
Qed.

Lemma applied_among_snoc k : forall n,
  applied_among n (S k)
  = applied_among n k + (if applied (store (n + k)) then 1 else 0).
Proof.
  induction k as [|k IH]; intros n.
  - simpl. replace (n + 0) with n by lia.
    destruct (applied (store n)); lia.
  - change (applied_among n (S (S k)))
      with ((if applied (store n) then 1 else 0) + applied_among (S n) (S k)).
    rewrite IH. simpl applied_among.
    replace (S n + k) with (n + S k) by lia.
    destruct (applied (store n)), (applied (store (n + S k))); lia.
Qed.

Lemma applied_among_le k : forall n, applied_among n k <= k.
Proof.
  induction k as [|k IH]; intros n; simpl; [lia|].
  specialize (IH (S n)). destruct (applied (store n)); lia.
Qed.

Lemma last_command_db k w :
  db (snd (cache_incr "hits" (skip_failures k w))) "hits"
  = (db w "hits" + Z.of_nat (applied_among (issued w) (S k)))%Z.
Proof.
  rewrite cache_incr_db, skip_failures_db, skip_failures_issued.
  rewrite applied_among_snoc.
  destruct (applied (store (issued w + k))); lia.
Qed.

(** The run behind a call of [get_hit_count]. *)
Lemma get_hit_count_run w res w' :
  get_hit_count w = (res, w') ->
  exists k,
    k <= 5
    /\ fails_first k w
    /\ (connection_failure (store (issued w + k)) = true -> k = 5)
    /\ res = fst (cache_incr "hits" (skip_failures k w))
    /\ w' = snd (cache_incr "hits" (skip_failures k w)).
Proof.
  intros H. rewrite get_hit_count_eq in H.
  destruct (while_true 5 w) as [[r left] w0] eqn:Hrun. simpl in H.
  destruct (while_true_run _ _ _ _ _ Hrun) as (k & Hk & Hf & Hl & Hr & _ & Hw).
  exists k. repeat (split; [assumption || congruence|]). congruence.
Qed.

Lemma get_hit_count_db_bounds w :
  (db w "hits" <= db (snd (get_hit_count w)) "hits" <= db w "hits" + 6)%Z.
Proof.
  destruct (get_hit_count w) as [res w'] eqn:Hg.
  destruct (get_hit_count_run _ _ _ Hg) as (k & Hk & _ & _ & _ & ->).
  simpl snd. rewrite last_command_db.
  pose proof (applied_among_le (S k) (issued w)). lia.
Qed.

Lemma get_hit_count_returned w v w' :
  get_hit_count w = (Returned v, w') ->
  v = db w' "hits" /\ (db w "hits" < v)%Z.
Proof.
  intros Hg.
  destruct (get_hit_count_run _ _ _ Hg) as (k & Hk & Hf & _ & Hr & ->).
  rewrite last_command_db.
  unfold cache_incr in Hr. rewrite skip_failures_issued in Hr.
  destruct (store (issued w + k)) as [|e' b] eqn:Hs; simpl in Hr;
    [|discriminate].
  injection Hr as ->. rewrite skip_failures_db, applied_among_snoc, Hs.
  cbn [applied]. cbv iota. lia.
Qed.

(** X1: a call writes no key of the store but [hits], and neither does a
    request. *)
Theorem other_keys_untouched w key :
  key <> "hits" ->
  db (snd (get_hit_count w)) key = db w key
  /\ db (snd (hello w)) key = db w key.
Proof.
  intros H.
  assert (G : forall w0, db (snd (get_hit_count w0)) key = db w0 key).
  { intros w0. destruct (get_hit_count w0) as [res w1] eqn:Hg.
    destruct (get_hit_count_run _ _ _ Hg) as (k & _ & _ & _ & _ & ->).
    simpl. rewrite cache_incr_other_key by exact H.
    now apply skip_failures_other_key. }
  split; [apply G|].
  unfold hello, bind, socket_gethostname, socket_gethostbyname.
  destruct os_hostname as [e|h]; [reflexivity|].
  destruct (dns h) as [e|a]; [reflexivity|].
  specialize (G (emit (EvGetHostByName h) (emit EvGetHostName w))).
  destruct (get_hit_count _) as [[c|e] w1]; exact G.
Qed.


(** X3: a call that raises raises the exception of the last command it
    sent; when that is a connection failure, the call did not give up
    early: it sent 6 commands and all 6 raised a connection failure. *)
Theorem raised_is_last_failure w e w' :
  get_hit_count w = (Raised e, w') ->
  issued w < issued w'
  /\ (exists b, store (issued w' - 1) = Fail e b)
  /\ (is_ConnectionError e = true ->
      issued w' = issued w + 6 /\ fails_first 6 w).
Proof.
  intros Hg.
  destruct (get_hit_count_run _ _ _ Hg) as (k & Hk & Hf & Hl & Hr & ->).
  rewrite last_command_issued.
  replace (issued w + S k - 1) with (issued w + k) by lia.
  unfold cache_incr in Hr. rewrite skip_failures_issued in Hr.
  destruct (store (issued w + k)) as [|e' b] eqn:Hs; simpl in Hr;
    [discriminate|].
  injection Hr as ->.
  split; [lia|]. split; [now exists b|].
  intros He. assert (k = 5) by (apply Hl; exact He). subst k.
  split; [lia|].
  intros i Hi. destruct (Nat.eq_dec i 5) as [->|Hn].
  - now rewrite Hs.
  - apply Hf. lia.
Qed.

(** X4: a call that returns returns the counter as the store holds it
    right after the call, which is above the counter before the call; the
    command that was answered is the last one sent, and every command
    before it in this call raised a connection failure. *)
Theorem returned_is_counter w v w' :
  get_hit_count w = (Returned v, w') ->
  v = db w' "hits"
  /\ (db w "hits" < v)%Z
  /\ store (issued w' - 1) = Reply
  /\ exists k, k <= 5 /\ issued w' = issued w + S k /\ fails_first k w.
Proof.
  intros Hg.
  destruct (get_hit_count_run _ _ _ Hg) as (k & Hk & Hf & _ & Hr & ->).
  rewrite last_command_issued, last_command_db.
  replace (issued w + S k - 1) with (issued w + k) by lia.
  unfold cache_incr in Hr. rewrite skip_failures_issued in Hr.
  destruct (store (issued w + k)) as [|e' b] eqn:Hs; simpl in Hr;
    [|discriminate].
  injection Hr as ->. rewrite skip_failures_db, applied_among_snoc, Hs.
  cbn [applied]. cbv iota.
  split; [lia|]. split; [lia|]. split; [reflexivity|].
  exists k. now repeat split.
Qed.

Lemma calls_values_above n : forall w,
  Forall (fun v => (db w "hits" < v)%Z) (returned_values (fst (calls n w))).
Proof.
  induction n as [|n IH]; intros w; simpl; [constructor|].
  destruct (get_hit_count w) as [r w1] eqn:Hg.
  specialize (IH w1). destruct (calls n w1) as [rs w2]. simpl in *.
  assert (Hle : (db w "hits" <= db w1 "hits")%Z).
  { destruct (get_hit_count_db_bounds w) as (Hlo & _).
    now rewrite Hg in Hlo. }
  assert (Hrest : Forall (fun v => (db w "hits" < v)%Z) (returned_values rs)).
  { eapply Forall_impl; [|exact IH]. simpl. intros; lia. }
  destruct r as [v|e]; [|exact Hrest].
  constructor; [|exact Hrest].
  now destruct (get_hit_count_returned _ _ _ Hg).
Qed.

(** X5: whatever the store does (failures, lost answers, exhausted calls
    in between), the integers returned by calls made one after the other
    are strictly increasing. *)
Theorem returned_values_increase n : forall w,
  StronglySorted Z.lt (returned_values (fst (calls n w))).
Proof.
  induction n as [|n IH]; intros w; simpl; [constructor|].
  destruct (get_hit_count w) as [r w1] eqn:Hg.
  pose proof (IH w1) as Hs. pose proof (calls_values_above n w1) as Ha.
  destruct (calls n w1) as [rs w2]. simpl in *.
  destruct r as [v|e]; [|exact Hs].
  constructor; [exact Hs|].
  destruct (get_hit_count_returned _ _ _ Hg) as (-> & _). exact Ha.
Qed.

(** ** More on the request handler *)

(** X6: when the lookups answer and the store is unreachable for the 6
    attempts, the request raises the connection failure of the 6th attempt:
    [hello] has no handler around [get_hit_count].  By then it has done
    both lookups, sent 6 commands and slept between them. *)
Theorem hello_store_unreachable w h a :
  os_hostname = inr h -> dns h = inr a -> fails_first 6 w ->
  exists e b w',
    store (issued w + 5) = Fail e b
    /\ is_ConnectionError e = true
    /\ hello w = (Raised e, w')
    /\ issued w' = issued w + 6
    /\ trace w' = trace w ++ [EvGetHostName; EvGetHostByName h]
                   ++ call_events (issued w) 5.
Proof.
  intros Hh Ha Hf.
  destruct (while_true_exhausts 5 (resolved h w) Hf) as (e & b & Hs & He & Hrun).
  exists e, b, (snd (cache_incr "hits" (skip_failures 5 (resolved h w)))).
  split; [exact Hs|]. split; [exact He|].
  split.
  { rewrite (hello_resolved w h a Hh Ha), get_hit_count_eq, Hrun. reflexivity. }
  split; [now rewrite last_command_issued|].
  rewrite last_command_trace. unfold resolved, emit. cbn [trace issued].
  rewrite <- !app_assoc. reflexivity.
Qed.

(** X7: with the lookups answering and the store reachable, the [i]-th of
    [n] requests made one after the other shows the counter it started
    from plus [i]. *)
Theorem requests_count_up h a n : forall w,
  os_hostname = inr h -> dns h = inr a ->
  (forall i, i < n -> store (issued w + i) = Reply) ->
  fst (requests n w)
  = map (fun i => Returned (return_msg h a (db w "hits" + 1 + Z.of_nat i)))
        (seq 0 n).
Proof.
  induction n as [|n IH]; intros w Hh Ha H; [reflexivity|].
  assert (H0 : store (issued (resolved h w)) = Reply).
  { specialize (H 0). rewrite Nat.add_0_r in H. apply H. lia. }
  simpl requests. rewrite (hello_resolved w h a Hh Ha).
  rewrite (get_hit_count_reply _ H0).
  set (w1 := snd (cache_incr "hits" (resolved h w))).
  specialize (IH w1 Hh Ha).
  destruct (requests n w1) as [rs w2]. simpl in IH. simpl.
  rewrite Z.add_0_r. f_equal.
  rewrite IH.
  - rewrite <- seq_shift, map_map. apply map_ext. intros i.
    unfold w1. rewrite cache_incr_db. simpl issued. simpl in H0. rewrite H0.
    simpl. do 2 f_equal. lia.
  - intros i Hi. unfold w1. rewrite cache_incr_issued. simpl.
    replace (S (issued w + i)) with (issued w + S i) by lia.
    apply H. lia.
Qed.

Lemma append_cancel_l p : forall s t, (p ++ s = p ++ t)%string -> s = t.
Proof.
  induction p as [|c p IH]; intros s t H; simpl in H; [exact H|].
  injection H as H. now apply IH.
Qed.

Lemma append_length s t :
  String.length (s ++ t)%string = String.length s + String.length t.
Proof. induction s as [|c s IH]; simpl; [reflexivity|now rewrite IH]. Qed.

Lemma append_cancel_r s : forall t p, (s ++ p = t ++ p)%string -> s = t.
Proof.
  induction s as [|c s IH]; intros [|d t] p H; simpl in H.
  - reflexivity.
  - apply (f_equal String.length) in H. simpl in H.
    rewrite append_length in H. lia.
  - apply (f_equal String.length) in H. simpl in H.
    rewrite append_length in H. lia.
  - injection H as -> H. f_equal. now apply (IH t p).
Qed.

Lemma str_inj z z' : str z = str z' -> z = z'.
Proof.
  unfold str. intros H.
  assert (N : forall x, Z.to_int x <> Decimal.Pos Decimal.Nil
                        /\ Z.to_int x <> Decimal.Neg Decimal.Nil).
  { intros [|p|p]; simpl; split; try discriminate;
      intros [= E]; now apply (Unsigned.to_uint_nonnil p). }
  apply DecimalZ.to_int_inj.
  assert (E : Some (Z.to_int z) = Some (Z.to_int z')).
  { rewrite <- (NilZero.isi (Z.to_int z)) by apply N.
    rewrite <- (NilZero.isi (Z.to_int z')) by apply N.
    now rewrite H. }
  now injection E.
Qed.

(** X8: the page tells the count: for one host name and address, two
    different counts never give the same page. *)
Theorem return_msg_count_inj h a c c' :
  c <> c' -> return_msg h a c <> return_msg h a c'.
Proof.
  unfold return_msg. intros Hc H. apply Hc.
  do 7 apply append_cancel_l in H.
  apply append_cancel_r in H. now apply str_inj.
Qed.

End App.

(** ** The theorems at concrete environments *)

Lemma get_hit_count_exhausts_witness :
  fails_first store_down 6 fresh
  /\ exists e b w',
       store_down (issued fresh + 5) = Fail e b
       /\ is_ConnectionError e = true
       /\ get_hit_count store_down fresh = (Raised e, w')
       /\ issued w' = issued fresh + 6
       /\ trace w' = trace fresh ++ call_events (issued fresh) 5
       /\ count is_incr (call_events (issued fresh) 5) = 6.
Proof.
  assert (H : fails_first store_down 6 fresh) by (intros i Hi; reflexivity).
  split; [exact H|exact (get_hit_count_exhausts store_down fresh H)].
Defined.

Lemma fails_first_recovers_3 : fails_first (store_recovers 3) 3 fresh.
Proof.
  intros i Hi. destruct i as [|[|[|i]]]; try reflexivity. lia.
Defined.

Lemma get_hit_count_recovers_witness :
  3 <= 5
  /\ fails_first (store_recovers 3) 3 fresh
  /\ store_recovers 3 (issued fresh + 3) = Reply
  /\ exists v w',
       get_hit_count (store_recovers 3) fresh = (Returned v, w')
       /\ cache_incr (store_recovers 3) "hits"
            (skip_failures (store_recovers 3) 3 fresh) = (Returned v, w')
       /\ v = (db (skip_failures (store_recovers 3) 3 fresh) "hits" + 1)%Z
       /\ db w' "hits" = v
       /\ v = (db fresh "hits"
               + Z.of_nat (applied_among (store_recovers 3) (issued fresh) 3)
               + 1)%Z
       /\ issued w' = issued fresh + 3 + 1.
Proof.
  assert (H3 : 3 <= 5) by lia.
  split; [exact H3|]. split; [exact fails_first_recovers_3|].
  split; [reflexivity|].
  exact (get_hit_count_recovers (store_recovers 3) 3 fresh H3
           fails_first_recovers_3 eq_refl).
Defined.

Lemma sequential_calls_count_up_witness :
  (forall i, i < 3 -> store_up (issued busy + i) = Reply)
  /\ fst (calls store_up 3 busy)
     = [Returned 42%Z; Returned 43%Z; Returned 44%Z].
Proof.
  assert (H : forall i, i < 3 -> store_up (issued busy + i) = Reply)
    by (intros i Hi; reflexivity).
  split; [exact H|exact (sequential_calls_count_up store_up 3 busy H)].
Defined.

Lemma fails_first_wrongtype_2 : fails_first (store_wrongtype 2) 2 fresh.
Proof.
  intros i Hi. destruct i as [|[|i]]; try reflexivity. lia.
Defined.

Lemma other_failure_propagates_witness :
  let e := OtherError "ResponseError" "value is not an integer" in
  2 <= 5
  /\ fails_first (store_wrongtype 2) 2 fresh
  /\ store_wrongtype 2 (issued fresh + 2) = Fail e false
  /\ is_ConnectionError e = false
  /\ exists w',
       while_true (store_wrongtype 2) (2 + 3) fresh = (Raised e, 3, w')
       /\ get_hit_count (store_wrongtype 2) fresh = (Raised e, w')
       /\ issued w' = issued fresh + 2 + 1
       /\ trace w' = trace fresh ++ call_events (issued fresh) 2
       /\ count is_sleep (call_events (issued fresh) 2) = 2
       /\ last (call_events (issued fresh) 2) EvGetHostName
          = EvIncr "hits" (issued fresh + 2).
Proof.
  intros e. assert (H2 : 2 <= 5) by lia.
  split; [exact H2|]. split; [exact fails_first_wrongtype_2|].
  split; [reflexivity|]. split; [reflexivity|].
  exact (other_failure_propagates (store_wrongtype 2) 2 3 fresh e false H2
           fails_first_wrongtype_2 eq_refl eq_refl).
Defined.

Lemma call_blocking_time_witness :
  let res := Raised (OtherError "ResponseError" "value is not an integer") in
  (forall n, (0 <= no_latency n)%Q)
  /\ while_true (store_wrongtype 2) 5 fresh = (res, 3, after_wrongtype)
  /\ get_hit_count (store_wrongtype 2) fresh = (res, after_wrongtype)
  /\ 3 <= 5
  /\ trace after_wrongtype = trace fresh ++ call_events (issued fresh) (5 - 3)
  /\ (forall secs, In (EvSleep secs) (call_events (issued fresh) (5 - 3)) ->
      secs = (1 # 2)%Q)
  /\ (slept (call_events (issued fresh) (5 - 3))
      == inject_Z (Z.of_nat (5 - 3)) * (1 # 2))%Q
  /\ (inject_Z (Z.of_nat (5 - 3)) * (1 # 2)
      <= elapsed no_latency (call_events (issued fresh) (5 - 3)))%Q
  /\ (slept (call_events (issued fresh) (5 - 3)) <= 5 * (1 # 2))%Q.
Proof.
  intros res.
  assert (Hl : forall n, (0 <= no_latency n)%Q) by (intros n; discriminate).
  split; [exact Hl|]. split; [reflexivity|].
  exact (call_blocking_time (store_wrongtype 2) no_latency fresh res 3
           after_wrongtype Hl eq_refl).
Defined.

Lemma hello_counts_visits_witness :
  host_ok = inr "web-1"
  /\ dns_ok "web-1" = inr "172.18.0.3"
  /\ store_up (issued fresh) = Reply
  /\ store_up (S (issued fresh)) = Reply
  /\ db fresh "hits" = 0%Z
  /\ exists w1 w2,
       hello store_up host_ok dns_ok fresh
       = (Returned (return_msg "web-1" "172.18.0.3" 1), w1)
       /\ hello store_up host_ok dns_ok w1
          = (Returned (return_msg "web-1" "172.18.0.3" 2), w2)
       /\ contains "I have been seen 1 times."
            (return_msg "web-1" "172.18.0.3" 1) = true
       /\ contains "I have been seen 2 times."
            (return_msg "web-1" "172.18.0.3" 2) = true
       /\ contains "web-1" (return_msg "web-1" "172.18.0.3" 1) = true
       /\ contains "172.18.0.3" (return_msg "web-1" "172.18.0.3" 1) = true
       /\ contains "web-1" (return_msg "web-1" "172.18.0.3" 2) = true
       /\ contains "172.18.0.3" (return_msg "web-1" "172.18.0.3" 2) = true.
Proof.
  repeat (split; [reflexivity|]).
  exact (hello_counts_visits store_up host_ok dns_ok fresh "web-1" "172.18.0.3"
           eq_refl eq_refl eq_refl eq_refl eq_refl).
Defined.

Lemma resolution_failure_propagates_witness :
  let e := OtherError "gaierror" "web-1" in
  resolution_failure host_ok dns_fails = Some e
  /\ exists w',
       hello store_up host_ok dns_fails busy = (Raised e, w')
       /\ ((host_ok = inl e /\ trace w' = trace busy ++ [EvGetHostName])
           \/ (exists name,
                 host_ok = inr name /\ dns_fails name = inl e
                 /\ trace w'
                    = trace busy ++ [EvGetHostName; EvGetHostByName name]))
       /\ count is_lookup (identity_trace host_ok) <= 2.
Proof.
  intros e. split; [reflexivity|].
  exact (resolution_failure_propagates store_up host_ok dns_fails busy e eq_refl).
Defined.

Lemma retry_budget_is_per_call_witness :
  fails_first store_down 6 (snd (calls store_down 1 fresh))
  /\ issued (snd (calls store_down 1 fresh)) = 6
  /\ issued (snd (get_hit_count store_down (snd (calls store_down 1 fresh))))
     = 12.
Proof.
  assert (H : fails_first store_down 6 (snd (calls store_down 1 fresh)))
    by (intros i Hi; reflexivity).
  split; [exact H|]. split; [reflexivity|].
  destruct (retry_budget_is_per_call store_down 1 fresh)
    as (k & _ & _ & _ & _ & _ & _ & _ & H6).
  exact (proj1 (H6 H)).
Defined.

Lemma resolution_before_increment_witness :
  resolution_failure host_fails dns_ok = Some (OtherError "OSError" "gethostname")
  /\ fst (hello store_up host_fails dns_ok busy)
     = Raised (OtherError "OSError" "gethostname")
  /\ issued (snd (hello store_up host_fails dns_ok busy)) = issued busy
  /\ db (snd (hello store_up host_fails dns_ok busy)) = db busy.
Proof.
  split; [reflexivity|].
  destruct (resolution_before_increment store_up host_fails dns_ok busy)
    as (evs & _ & _ & _ & H).
  exact (proj2 (H _ eq_refl)).
Defined.

Lemma sleeps_match_retries_witness :
  let res := Raised (ConnectionError "refused #5") in
  while_true store_down 5 fresh = (res, 0, after_down)
  /\ get_hit_count store_down fresh = (res, after_down)
  /\ 0 <= 5
  /\ trace after_down = trace fresh ++ call_events (issued fresh) (5 - 0)
  /\ count is_sleep (call_events (issued fresh) (5 - 0)) = 5 - 0
  /\ count is_incr (call_events (issued fresh) (5 - 0)) = S (5 - 0)
  /\ (forall secs, In (EvSleep secs) (call_events (issued fresh) (5 - 0)) ->
      secs = (1 # 2)%Q)
  /\ last (call_events (issued fresh) (5 - 0)) EvGetHostName
     = EvIncr "hits" (issued fresh + (5 - 0))
  /\ (fails_first store_down 6 fresh ->
      0 = 0
      /\ count is_sleep (call_events (issued fresh) (5 - 0)) = 5
      /\ exists e, res = Raised e /\ is_ConnectionError e = true).
Proof.
  intros res. split; [reflexivity|].
  exact (sleeps_match_retries store_down fresh res 0 after_down eq_refl).
Defined.

Lemma other_keys_untouched_witness :
  "visits" <> "hits"
  /\ db (snd (get_hit_count (store_recovers 3) fresh)) "visits"
     = db fresh "visits"
  /\ db (snd (hello (store_recovers 3) host_ok dns_ok fresh)) "visits"
     = db fresh "visits".
Proof.
  assert (H : "visits" <> "hits") by discriminate.
  split; [exact H|].
  exact (other_keys_untouched (store_recovers 3) host_ok dns_ok fresh "visits" H).
Defined.

Lemma raised_is_last_failure_witness :
  let e := ConnectionError "refused #5" in
  get_hit_count store_down fresh = (Raised e, after_down)
  /\ issued fresh < issued after_down
  /\ (exists b, store_down (issued after_down - 1) = Fail e b)
  /\ (is_ConnectionError e = true ->
      issued after_down = issued fresh + 6 /\ fails_first store_down 6 fresh).
Proof.
  intros e. split; [reflexivity|].
  exact (raised_is_last_failure store_down fresh e after_down eq_refl).
Defined.

Lemma returned_is_counter_witness :
  get_hit_count (store_recovers 3) fresh = (Returned 2%Z, after_recovers)
  /\ 2%Z = db after_recovers "hits"
  /\ (db fresh "hits" < 2)%Z
  /\ store_recovers 3 (issued after_recovers - 1) = Reply
  /\ exists k,
       k <= 5 /\ issued after_recovers = issued fresh + S k
       /\ fails_first (store_recovers 3) k fresh.
Proof.
  split; [reflexivity|].
  exact (returned_is_counter (store_recovers 3) fresh 2%Z after_recovers eq_refl).
Defined.

Lemma hello_store_unreachable_witness :
  host_ok = inr "web-1"
  /\ dns_ok "web-1" = inr "172.18.0.3"
  /\ fails_first store_down 6 fresh
  /\ exists e b w',
       store_down (issued fresh + 5) = Fail e b
       /\ is_ConnectionError e = true
       /\ hello store_down host_ok dns_ok fresh = (Raised e, w')
       /\ issued w' = issued fresh + 6
       /\ trace w' = trace fresh ++ [EvGetHostName; EvGetHostByName "web-1"]
                      ++ call_events (issued fresh) 5.
Proof.
  assert (H : fails_first store_down 6 fresh) by (intros i Hi; reflexivity).
  split; [reflexivity|]. split; [reflexivity|]. split; [exact H|].
  exact (hello_store_unreachable store_down host_ok dns_ok fresh
           "web-1" "172.18.0.3" eq_refl eq_refl H).
Defined.

Lemma requests_count_up_witness :
  host_ok = inr "web-1"
  /\ dns_ok "web-1" = inr "172.18.0.3"
  /\ (forall i, i < 3 -> store_up (issued busy + i) = Reply)
  /\ fst (requests store_up host_ok dns_ok 3 busy)
     = [Returned (return_msg "web-1" "172.18.0.3" 42);
        Returned (return_msg "web-1" "172.18.0.3" 43);
        Returned (return_msg "web-1" "172.18.0.3" 44)].
Proof.
  assert (H : forall i, i < 3 -> store_up (issued busy + i) = Reply)
    by (intros i Hi; reflexivity).
  split; [reflexivity|]. split; [reflexivity|]. split; [exact H|].
  exact (requests_count_up store_up host_ok dns_ok "web-1" "172.18.0.3" 3 busy
           eq_refl eq_refl H).
Defined.

Lemma return_msg_count_inj_witness :
  9%Z <> 10%Z
  /\ return_msg "web-1" "172.18.0.3" 9 <> return_msg "web-1" "172.18.0.3" 10.
Proof.
  assert (H : 9%Z <> 10%Z) by discriminate.
  split; [exact H|].
  exact (return_msg_count_inj "web-1" "172.18.0.3" 9 10 H).
Defined.
